(** * Travel-diary screen (src/App.tsx): a shallow embedding and its properties

    The screen is one React function component.  Its seven [useState] cells
    are the fields of [AppState]; each handler ([fetchPlaces], [getLocation],
    [takePhoto], [handleSave]) is a computation in a small monad that threads
    the component state and a log of the calls made to the outside world, and
    that can complete abruptly with a JavaScript exception.  What the outside
    world answers to each [await] (the HTTP response, the permission dialog,
    the camera) is a parameter of the handler. *)

From Stdlib Require Import String Ascii List ZArith Bool Lia.
From Stdlib Require Import SpecFloat DecimalString DecimalN.
Import ListNotations.

Local Open Scope string_scope.
Local Open Scope Z_scope.

(** ** JavaScript values used by the screen *)

Module Js.

(** A JS [number] is an IEEE-754 binary64 value: a signed zero, an infinity,
    NaN, or [(-1)^s * m * 2^e]. *)
Definition number : Type := spec_float.

Definition prec : Z := 53.
Definition emax : Z := 1024.

(** The number denoted by a decimal literal [sign digits / 10^scale], as the
    JS reader produces it: the binary64 value nearest to the quotient (ties to
    even).  Both operands are exact, so one correctly rounded division gives
    it. *)
Definition literal (neg : bool) (digits : positive) (scale : N) : number :=
  SFdiv prec emax (S754_finite neg digits 0)
                  (S754_finite false (N.iter scale (Pos.mul 10) 1%positive) 0).

(** An exception value; only its message is kept. *)
Record Error : Type := mkError { message : string }.

(** What an awaited promise settles to. *)
Inductive Settled (A : Type) : Type :=
| Resolved (a : A)
| Rejected (e : Error).
Arguments Resolved {A} a.
Arguments Rejected {A} e.

(** Truthiness of a string: only the empty string is falsy. *)
Definition truthy (s : string) : bool :=
  match s with EmptyString => false | String _ _ => true end.

(** Truthiness of a [string | null | undefined] value. *)
Definition truthy_opt (o : option string) : bool :=
  match o with Some s => truthy s | None => false end.

(** What [${v}] contributes to a template literal: the string itself, and
    ["null"] for null. *)
Definition interpolate (o : option string) : string :=
  match o with Some s => s | None => "null" end.

(** Decimal digits of a non-negative integer, ["0"] for zero. *)
Definition digits_of (n : Z) : string :=
  NilZero.string_of_uint (N.to_uint (Z.to_N n)).

Fixpoint zeros (k : nat) : string :=
  match k with O => "" | S k' => String "0" (zeros k') end.

(** For [x = m * 2^e > 0], the integer [n] for which [n / 10^f - x] is
    closest to zero, the larger one when there are two. *)
Definition nearest_scaled (m : positive) (e : Z) (f : N) : Z :=
  let p := 10 ^ Z.of_N f in
  if 0 <=? e then Z.pos m * 2 ^ e * p
  else (2 * Z.pos m * p + 2 ^ (- e)) / 2 ^ (- e + 1).

(** [m * 2^e < 10^21]. *)
Definition below_1e21 (m : positive) (e : Z) : bool :=
  if 0 <=? e then Z.pos m * 2 ^ e <? 10 ^ 21
  else Z.pos m <? 10 ^ 21 * 2 ^ (- e).

(** Left-pad the digits with zeros to [f + 1] characters and put the point
    [f] characters from the end. *)
Definition place_point (m : string) (f : nat) : string :=
  match f with
  | O => m
  | _ =>
    let k := String.length m in
    let m' := if Nat.leb k f then zeros (f + 1 - k) ++ m else m in
    let k' := String.length m' in
    substring 0 (k' - f) m' ++ "." ++ substring (k' - f) f m'
  end.

(** [Number.prototype.toFixed(f)] for [0 <= f <= 100], after ECMA-262
    21.1.3.3.  A non-finite receiver prints as [Number::toString] does; for a
    finite one the sign is split off and the magnitude is rounded by
    [nearest_scaled].  The branch [|x| >= 10^21], which prints in exponent
    notation, is not modelled and yields [None]. *)
Definition toFixed (x : number) (f : N) : option string :=
  match x with
  | S754_nan => Some "NaN"
  | S754_infinity false => Some "Infinity"
  | S754_infinity true => Some "-Infinity"
  | S754_zero _ => Some (place_point "0" (N.to_nat f))
  | S754_finite s m e =>
    if below_1e21 m e then
      Some ((if s then "-" else "") ++
            place_point (digits_of (nearest_scaled m e f)) (N.to_nat f))
    else None
  end.

End Js.

(** ** Data model *)

(** [type Place], lines 22-30.  The optional [photo] and [createdAt] are
    [None] when the property is null or missing. *)
Module Place.
Record t : Type := mk {
  _id : string;
  title : string;
  description : string;
  latitude : Js.number;
  longitude : Js.number;
  photo : option string;
  createdAt : option string
}.
End Place.

(** The seven [useState] cells of [App], lines 33-39. *)
Record AppState : Type := mkState {
  title : string;
  description : string;
  latitude : option Js.number;
  longitude : option Js.number;
  photo : option string;
  places : list Place.t;
  loading : bool
}.

(** The first render: every [useState] initial value. *)
Definition initial : AppState :=
  {| title := ""; description := ""; latitude := None; longitude := None;
     photo := None; places := []; loading := false |}.

(** ** The outside world *)

(** The object given to [JSON.stringify] in [handleSave], line 99. *)
Record Payload : Type := mkPayload {
  body_title : string;
  body_description : string;
  body_latitude : option Js.number;
  body_longitude : option Js.number;
  body_photo : option string
}.

(** Second argument of [fetch]. *)
Record RequestInit : Type := mkInit {
  method : string;
  headers : list (string * string);
  body : Payload
}.

(** A [Response]: [ok] is true exactly for a status in 200..299, and
    [json] is what the promise returned by [res.json()] settles to. *)
Record Response (A : Type) : Type := mkResponse {
  status : Z;
  json : Js.Settled A
}.
Arguments mkResponse {A} status json.
Arguments status {A} r.
Arguments json {A} r.

Definition ok {A} (res : Response A) : bool :=
  (200 <=? status res) && (status res <=? 299).

(** Result of a permission request (expo): only [status] is read. *)
Record PermissionResponse : Type := mkPermission { perm_status : string }.

(** [location.coords] of expo-location: both coordinates are numbers. *)
Record LocationObjectCoords : Type := mkCoords {
  coords_latitude : Js.number;
  coords_longitude : Js.number
}.
Record LocationObject : Type := mkLocation { coords : LocationObjectCoords }.

(** Result of [launchCameraAsync]: [assets] is an array or null; of an asset
    only [base64] and [uri] are read, each a string, null or missing. *)
Record ImagePickerAsset : Type := mkAsset {
  base64 : option string;
  uri : option string
}.
Record ImagePickerResult : Type := mkResult {
  canceled : bool;
  assets : option (list ImagePickerAsset)
}.

Record CameraOptions : Type := mkCameraOptions {
  allowsEditing : bool;
  quality : Js.number;
  want_base64 : bool
}.

(** Every call that leaves the component, in program order. *)
Inductive Effect : Type :=
| Fetch (url : string) (init : option RequestInit)
| AlertAlert (heading text : string)
| ConsoleError (e : Js.Error)
| RequestForegroundPermissions
| GetCurrentPosition
| RequestCameraPermissions
| LaunchCamera (options : CameraOptions).

Definition is_fetch (e : Effect) : bool :=
  match e with Fetch _ _ => true | _ => false end.

Definition is_alert (e : Effect) : bool :=
  match e with AlertAlert _ _ => true | _ => false end.

(** ** The handler monad: component state, effect log, exceptions *)

Record World : Type := mkWorld {
  state : AppState;
  log : list Effect
}.

Inductive Completion (A : Type) : Type :=
| Normal (a : A)
| Throw (e : Js.Error).
Arguments Normal {A} a.
Arguments Throw {A} e.

Definition Task (A : Type) : Type := World -> Completion A * World.

Definition ret {A} (a : A) : Task A := fun w => (Normal a, w).

Definition bind {A B} (t : Task A) (k : A -> Task B) : Task B :=
  fun w =>
    match t w with
    | (Normal a, w') => k a w'
    | (Throw e, w') => (Throw e, w')
    end.

Notation "x <- t ;; k" := (bind t (fun x => k))
  (at level 61, t at next level, right associativity).
Notation "t ;; k" := (bind t (fun _ => k))
  (at level 61, right associativity).

(** [try { body } catch (error) { handler error } finally { fin }]. *)
Definition try_catch_finally {A}
    (body : Task A) (handler : Js.Error -> Task A) (fin : Task unit) : Task A :=
  fun w =>
    let (r, w1) :=
      match body w with
      | (Normal a, w') => (Normal a, w')
      | (Throw e, w') => handler e w'
      end in
    match fin w1 with
    | (Normal _, w2) => (r, w2)
    | (Throw e, w2) => (Throw e, w2)
    end.

Definition try_catch {A} (body : Task A) (handler : Js.Error -> Task A) : Task A :=
  try_catch_finally body handler (ret tt).

(** A state setter called with an updater function. *)
Definition modify (f : AppState -> AppState) : Task unit :=
  fun w => (Normal tt, {| state := f (state w); log := log w |}).

Definition perform (e : Effect) : Task unit :=
  fun w => (Normal tt, {| state := state w; log := (log w ++ [e])%list |}).

(** [await p] for a promise that settles to [r]. *)
Definition await {A} (r : Js.Settled A) : Task A :=
  fun w =>
    match r with
    | Js.Resolved a => (Normal a, w)
    | Js.Rejected e => (Throw e, w)
    end.

(** Run a handler from component state [s] with an empty log. *)
Definition run {A} (t : Task A) (s : AppState) : Completion A * World :=
  t {| state := s; log := [] |}.

Definition final {A} (t : Task A) (s : AppState) : AppState :=
  state (snd (run t s)).

Definition effects {A} (t : Task A) (s : AppState) : list Effect :=
  log (snd (run t s)).

(** The [useState] setters. *)
Definition setTitle (v : string) : Task unit :=
  modify (fun s => {| title := v; description := description s;
                      latitude := latitude s; longitude := longitude s;
                      photo := photo s; places := places s; loading := loading s |}).
Definition setDescription (v : string) : Task unit :=
  modify (fun s => {| title := title s; description := v;
                      latitude := latitude s; longitude := longitude s;
                      photo := photo s; places := places s; loading := loading s |}).
Definition setLatitude (v : option Js.number) : Task unit :=
  modify (fun s => {| title := title s; description := description s;
                      latitude := v; longitude := longitude s;
                      photo := photo s; places := places s; loading := loading s |}).
Definition setLongitude (v : option Js.number) : Task unit :=
  modify (fun s => {| title := title s; description := description s;
                      latitude := latitude s; longitude := v;
                      photo := photo s; places := places s; loading := loading s |}).
Definition setPhoto (v : option string) : Task unit :=
  modify (fun s => {| title := title s; description := description s;
                      latitude := latitude s; longitude := longitude s;
                      photo := v; places := places s; loading := loading s |}).
Definition setPlacesWith (f : list Place.t -> list Place.t) : Task unit :=
  modify (fun s => {| title := title s; description := description s;
                      latitude := latitude s; longitude := longitude s;
                      photo := photo s; places := f (places s); loading := loading s |}).
Definition setPlaces (v : list Place.t) : Task unit :=
  setPlacesWith (fun _ => v).
Definition setLoading (v : bool) : Task unit :=
  modify (fun s => {| title := title s; description := description s;
                      latitude := latitude s; longitude := longitude s;
                      photo := photo s; places := places s; loading := v |}).

(** The imported APIs.  Each call is logged; the promise it returns settles
    to the answer supplied by the caller of the handler. *)
Definition fetch {A} (url : string) (init : option RequestInit)
    (answer : Js.Settled (Response A)) : Task (Response A) :=
  perform (Fetch url init) ;; await answer.

Module Alert.
Definition alert (heading text : string) : Task unit :=
  perform (AlertAlert heading text).
End Alert.

Module console.
Definition error (e : Js.Error) : Task unit := perform (ConsoleError e).
End console.

Module Location.
Definition requestForegroundPermissionsAsync
    (answer : Js.Settled PermissionResponse) : Task PermissionResponse :=
  perform RequestForegroundPermissions ;; await answer.
Definition getCurrentPositionAsync
    (answer : Js.Settled LocationObject) : Task LocationObject :=
  perform GetCurrentPosition ;; await answer.
End Location.

Module ImagePicker.
Definition requestCameraPermissionsAsync
    (answer : Js.Settled PermissionResponse) : Task PermissionResponse :=
  perform RequestCameraPermissions ;; await answer.
Definition launchCameraAsync (options : CameraOptions)
    (answer : Js.Settled ImagePickerResult) : Task ImagePickerResult :=
  perform (LaunchCamera options) ;; await answer.
End ImagePicker.

(** ** The handlers of [App] *)

Definition API_URL : string := "http://192.168.0.109:3000".

Definition is_null {A} (v : option A) : bool :=
  match v with None => true | Some _ => false end.

(** [fetchPlaces], lines 45-54. *)
Definition fetchPlaces (answer : Js.Settled (Response (list Place.t))) : Task unit :=
  try_catch
    (res <- fetch (API_URL ++ "/api/places") None answer ;;
     data <- await (json res) ;;
     setPlaces data)
    (fun error =>
       console.error error ;;
       Alert.alert "Erro" "Não foi possível carregar os registros").

(** [getLocation], lines 56-65. *)
Definition getLocation (permission : Js.Settled PermissionResponse)
    (position : Js.Settled LocationObject) : Task unit :=
  r <- Location.requestForegroundPermissionsAsync permission ;;
  if negb (perm_status r =? "granted")%string then
    Alert.alert "Permissão negada" "É necessário permitir o acesso à localização."
  else
    location <- Location.getCurrentPositionAsync position ;;
    setLatitude (Some (coords_latitude (coords location))) ;;
    setLongitude (Some (coords_longitude (coords location))).

(** [takePhoto], lines 67-86. *)
Definition cameraOptions : CameraOptions :=
  {| allowsEditing := true; quality := Js.literal false 5 1; want_base64 := true |}.

Definition takePhoto (permission : Js.Settled PermissionResponse)
    (capture : Js.Settled ImagePickerResult) : Task unit :=
  r <- ImagePicker.requestCameraPermissionsAsync permission ;;
  if negb (perm_status r =? "granted")%string then
    Alert.alert "Permissão negada" "É necessário permitir o uso da câmera."
  else
    result <- ImagePicker.launchCameraAsync cameraOptions capture ;;
    if negb (canceled result) then
      match assets result with
      | Some (asset :: _) =>
        if Js.truthy_opt (base64 asset) then
          setPhoto (Some ("data:image/jpeg;base64," ++ Js.interpolate (base64 asset)))
        else if Js.truthy_opt (uri asset) then
          setPhoto (uri asset)
        else ret tt
      | _ => ret tt
      end
    else ret tt.

(** [handleSave], lines 88-124.  The draft values are those of the render
    [c] that created the handler; the setters act on the current state. *)
Definition handleSave (c : AppState)
    (answer : Js.Settled (Response Place.t)) : Task unit :=
  if negb (Js.truthy (title c)) || negb (Js.truthy (description c))
     || is_null (latitude c) || is_null (longitude c) then
    Alert.alert "Atenção" "Preencha título, descrição e capture a localização."
  else
    try_catch_finally
      (setLoading true ;;
       res <- fetch (API_URL ++ "/api/places")
                (Some {| method := "POST";
                         headers := [("Content-Type", "application/json")];
                         body := {| body_title := title c;
                                    body_description := description c;
                                    body_latitude := latitude c;
                                    body_longitude := longitude c;
                                    body_photo := photo c |} |})
                answer ;;
       if negb (ok res) then
         Alert.alert "Erro" "Falha ao salvar o registro."
       else
         created <- await (json res) ;;
         setPlacesWith (fun prev => created :: prev) ;;
         setTitle "" ;;
         setDescription "" ;;
         setLatitude None ;;
         setLongitude None ;;
         setPhoto None ;;
         Alert.alert "Sucesso" "Local salvo!")
      (fun error =>
         console.error error ;;
         Alert.alert "Erro" "Falha na conexão com o backend.")
      (setLoading false).

(** ** The screen as a transition system *)

(** What can happen to the mounted screen: the mount effect (lines 41-43),
    typing in either input, and a press on one of the four controls of the
    header, each with the answers the outside world gives to its awaits. *)
Inductive Event : Type :=
| Mount (answer : Js.Settled (Response (list Place.t)))
| ChangeTitle (text : string)
| ChangeDescription (text : string)
| PressLocation (permission : Js.Settled PermissionResponse)
                (position : Js.Settled LocationObject)
| PressPhoto (permission : Js.Settled PermissionResponse)
             (capture : Js.Settled ImagePickerResult)
| PressRemovePhoto
| PressSave (answer : Js.Settled (Response Place.t)).

(** The handler an event runs, created by the render of state [c].  The
    save control is disabled while [loading] (line 182). *)
Definition dispatch (c : AppState) (ev : Event) : Task unit :=
  match ev with
  | Mount answer => fetchPlaces answer
  | ChangeTitle text => setTitle text
  | ChangeDescription text => setDescription text
  | PressLocation permission position => getLocation permission position
  | PressPhoto permission capture => takePhoto permission capture
  | PressRemovePhoto => setPhoto None
  | PressSave answer => if loading c then ret tt else handleSave c answer
  end.

Definition step (s : AppState) (ev : Event) : AppState :=
  final (dispatch s ev) s.

Definition after (evs : list Event) : AppState :=
  fold_left step evs initial.

(** Latitude is null exactly when longitude is. *)
Definition coords_paired (s : AppState) : Prop :=
  latitude s = None <-> longitude s = None.

(** ** Rendering of a list item, lines 195-219 *)

(** The text child of the coordinates line (lines 207-209),
    [{item.latitude.toFixed(4)}, {item.longitude.toFixed(4)}]: the two
    formatted numbers around the literal text [", "]. *)
Definition cardCoordsText (item : Place.t) : option string :=
  match Js.toFixed (Place.latitude item) 4, Js.toFixed (Place.longitude item) 4 with
  | Some la, Some lo => Some (la ++ ", " ++ lo)
  | _, _ => None
  end.

(** ** Vocabulary of the statements *)

(** The draft passes the guard of [handleSave] (line 89). *)
Definition complete (c : AppState) : Prop :=
  title c <> "" /\ description c <> "" /\ latitude c <> None /\ longitude c <> None.

(** A submission that was sent failed: the request was rejected, the
    response has a status outside 200..299, or its body could not be read. *)
Inductive failed : Js.Settled (Response Place.t) -> Prop :=
| failed_network (e : Js.Error) : failed (Js.Rejected e)
| failed_status (res : Response Place.t) :
    ok res = false -> failed (Js.Resolved res)
| failed_body (res : Response Place.t) (e : Js.Error) :
    ok res = true -> json res = Js.Rejected e -> failed (Js.Resolved res).

(** The request [handleSave] sends for draft [c]. *)
Definition postOf (c : AppState) : Effect :=
  Fetch "http://192.168.0.109:3000/api/places"
    (Some {| method := "POST";
             headers := [("Content-Type", "application/json")];
             body := {| body_title := title c;
                        body_description := description c;
                        body_latitude := latitude c;
                        body_longitude := longitude c;
                        body_photo := photo c |} |}).

Definition listRequest : Effect :=
  Fetch "http://192.168.0.109:3000/api/places" None.

Definition validationAlert : Effect :=
  AlertAlert "Atenção" "Preencha título, descrição e capture a localização.".

Definition withLoading (v : bool) (s : AppState) : AppState :=
  {| title := title s; description := description s;
     latitude := latitude s; longitude := longitude s;
     photo := photo s; places := places s; loading := v |}.

Definition withPhoto (p : option string) (s : AppState) : AppState :=
  {| title := title s; description := description s;
     latitude := latitude s; longitude := longitude s;
     photo := p; places := places s; loading := loading s |}.

(** ** Concrete data *)

(** The scenario of a first saved place. *)
Definition boaViagem : Place.t :=
  {| Place._id := "abc";
     Place.title := "Praia de Boa Viagem";
     Place.description := "Linda";
     Place.latitude := Js.literal true 812 2;
     Place.longitude := Js.literal true 3490 2;
     Place.photo := None;
     Place.createdAt := Some "2024-01-01T00:00:00Z" |}.

Definition boaViagemDraft : AppState :=
  {| title := "Praia de Boa Viagem"; description := "Linda";
     latitude := Some (Js.literal true 812 2);
     longitude := Some (Js.literal true 3490 2);
     photo := None; places := []; loading := false |}.

Definition createdResponse : Response Place.t :=
  {| status := 201; json := Js.Resolved boaViagem |}.

Definition serverError : Response Place.t :=
  {| status := 500; json := Js.Rejected {| Js.message := "Unexpected token" |} |}.

Definition errorWithBody : Response (list Place.t) :=
  {| status := 500; json := Js.Resolved [boaViagem] |}.

Definition originDraft : AppState :=
  {| title := "Null Island"; description := "0, 0";
     latitude := Some (S754_zero false); longitude := Some (S754_zero false);
     photo := None; places := []; loading := false |}.

Definition granted : PermissionResponse := {| perm_status := "granted" |}.

Definition shot : ImagePickerAsset :=
  {| base64 := Some "QUJD"; uri := Some "file:///cache/photo.jpg" |}.

Definition shotResult : ImagePickerResult :=
  {| canceled := false; assets := Some [shot] |}.

Definition cancelledResult : ImagePickerResult :=
  {| canceled := true; assets := None |}.

(** ** The header of the list, lines 127-193 *)

(** Truthiness of a [number | null] value: null, both zeros and NaN are
    falsy. *)
Definition truthy_number (v : option Js.number) : bool :=
  match v with
  | Some (S754_finite _ _ _) | Some (S754_infinity _) => true
  | _ => false
  end.

(** The functions a control of the header is wired to. *)
Inductive Handler : Type :=
| HsetTitle
| HsetDescription
| HgetLocation
| HtakePhoto
| HsetPhotoNull
| HhandleSave.

(** The elements the header is made of.  A style is the array given to the
    [style] prop, by the names of the entries of [styles]; [None] is a falsy
    entry, as left by [cond && styles.x].  [Bare] is a string child outside
    any [Text]. *)
#[local] Unset Elimination Schemes.
Inductive Element : Type :=
| View (style : list (option string)) (children : list Element)
| Text (style : list (option string)) (content : string)
| TextInput (style : list (option string))
            (placeholder placeholderTextColor value : string)
            (onChangeText : Handler) (multiline : bool)
| TouchableOpacity (style : list (option string)) (onPress : Handler)
                   (disabled : bool) (children : list Element)
| MaterialIcons (name : string) (size : Z) (color : string)
| Image (uri : string) (style : list (option string))
| Bare (text : string).
#[local] Set Elimination Schemes.

(** [cond && styles.name] inside a style array. *)
Definition and_style (cond : bool) (name : string) : option string :=
  if cond then Some name else None.

(** The location control, lines 149-157. *)
Definition locationControl (s : AppState) : Element :=
  TouchableOpacity
    [Some "buttonSecondary"; and_style (truthy_number (latitude s)) "buttonSuccess"]
    HgetLocation false
    [MaterialIcons "my-location" 20
       (if truthy_number (latitude s) then "#fff" else "#4b5563");
     Text [Some "buttonTextSecondary";
           and_style (truthy_number (latitude s)) "buttonTextWhite"]
          (if truthy_number (latitude s) then "Localização OK" else "Pegar Local")].

(** The camera control, lines 159-167. *)
Definition photoControl (s : AppState) : Element :=
  TouchableOpacity
    [Some "buttonSecondary"; and_style (Js.truthy_opt (photo s)) "buttonSuccess"]
    HtakePhoto false
    [MaterialIcons "camera-alt" 20
       (if Js.truthy_opt (photo s) then "#fff" else "#4b5563");
     Text [Some "buttonTextSecondary";
           and_style (Js.truthy_opt (photo s)) "buttonTextWhite"]
          (if Js.truthy_opt (photo s) then "Foto OK" else "Tirar Foto")].

(** The child [{photo && (...)}], lines 170-177: nothing for null, the empty
    string itself for an empty photo, the preview otherwise. *)
Definition preview (s : AppState) : list Element :=
  match photo s with
  | None => []
  | Some u =>
    if Js.truthy u then
      [View [Some "previewContainer"]
         [Image u [Some "previewImage"];
          TouchableOpacity [Some "removePhotoBtn"] HsetPhotoNull false
            [MaterialIcons "close" 16 "#fff"]]]
    else [Bare u]
  end.

(** The save control, lines 179-187. *)
Definition saveControl (s : AppState) : Element :=
  TouchableOpacity
    [Some "buttonPrimary"; and_style (loading s) "buttonDisabled"]
    HhandleSave (loading s)
    [Text [Some "buttonTextPrimary"]
          (if loading s then "Salvando..." else "Salvar Registro")].

(** [renderHeader], lines 127-193, for the render of state [s]. *)
Definition renderHeader (s : AppState) : Element :=
  View [Some "formContainer"]
    ([View [Some "inputGroup"]
        [Text [Some "label"] "Novo Local";
         TextInput [Some "input"] "Ex: Praia de Boa Viagem" "#9ca3af"
                   (title s) HsetTitle false;
         TextInput [Some "input"; Some "textArea"]
                   "O que torna este lugar especial?" "#9ca3af"
                   (description s) HsetDescription true];
      View [Some "actionRow"] [locationControl s; photoControl s]]
     ++ preview s
     ++ [saveControl s;
         View [Some "dividerContainer"] [Text [Some "sectionTitle"] "Histórico"]])%list.

(** ** More vocabulary *)

Definition withCoords (la lo : Js.number) (s : AppState) : AppState :=
  {| title := title s; description := description s;
     latitude := Some la; longitude := Some lo;
     photo := photo s; places := places s; loading := loading s |}.

Definition withPlaces (l : list Place.t) (s : AppState) : AppState :=
  {| title := title s; description := description s;
     latitude := latitude s; longitude := longitude s;
     photo := photo s; places := l; loading := loading s |}.

(** The draft as [handleSave] leaves it on success, over list [l]. *)
Definition cleared (l : list Place.t) : AppState :=
  {| title := ""; description := ""; latitude := None; longitude := None;
     photo := None; places := l; loading := false |}.

Definition locationDenied : Effect :=
  AlertAlert "Permissão negada" "É necessário permitir o acesso à localização.".

Definition cameraDenied : Effect :=
  AlertAlert "Permissão negada" "É necessário permitir o uso da câmera.".

Definition fetchFailed : Effect :=
  AlertAlert "Erro" "Não foi possível carregar os registros".

(** A number [toFixed] prints in positional notation: a zero, or a finite
    value of magnitude below [10^21]. *)
Definition displayable (x : Js.number) : bool :=
  match x with
  | S754_zero _ => true
  | S754_finite _ m e => Js.below_1e21 m e
  | _ => false
  end.

(** The draft photo is null or a non-empty string. *)
Definition photo_usable (s : AppState) : Prop :=
  photo s = None \/ exists u, photo s = Some u /\ u <> "".

(** The integer a string of decimal digits denotes. *)
Definition digits_value (s : string) : option Z :=
  option_map (fun d => Z.of_N (N.of_uint d)) (NilZero.uint_of_string s).

Definition denied : PermissionResponse := {| perm_status := "denied" |}.

Definition recife : LocationObject :=
  {| coords := {| coords_latitude := Js.literal true 812 2;
                  coords_longitude := Js.literal true 3490 2 |} |}.

Definition offline : Js.Error := {| Js.message := "Network request failed" |}.

(** * Properties *)

(** ** Auxiliary facts *)

Lemma truthy_true_iff (s : string) : Js.truthy s = true <-> s <> "".
Proof. destruct s; simpl; split; congruence. Qed.

Lemma is_null_false_iff {A} (v : option A) : is_null v = false <-> v <> None.
Proof. destruct v; simpl; split; congruence. Qed.

Lemma guard_complete (c : AppState) :
  complete c ->
  negb (Js.truthy (title c)) || negb (Js.truthy (description c))
  || is_null (latitude c) || is_null (longitude c) = false.
Proof.
  intros (Ht & Hd & Hla & Hlo).
  apply truthy_true_iff in Ht, Hd. apply is_null_false_iff in Hla, Hlo.
  now rewrite Ht, Hd, Hla, Hlo.
Qed.

Lemma guard_incomplete (c : AppState) :
  title c = "" \/ description c = "" \/ latitude c = None \/ longitude c = None ->
  negb (Js.truthy (title c)) || negb (Js.truthy (description c))
  || is_null (latitude c) || is_null (longitude c) = true.
Proof.
  intros [H | [H | [H | H]]]; rewrite H; simpl;
    rewrite ?orb_true_r; reflexivity.
Qed.

(** The three ways a submission that was sent can end. *)
Lemma handleSave_created (s : AppState) (res : Response Place.t) (created : Place.t) :
  complete s -> ok res = true -> json res = Js.Resolved created ->
  run (handleSave s (Js.Resolved res)) s =
  (Normal tt,
   {| state := {| title := ""; description := ""; latitude := None;
                  longitude := None; photo := None;
                  places := created :: places s; loading := false |};
      log := [postOf s; AlertAlert "Sucesso" "Local salvo!"] |}).
Proof.
  intros Hc Hok Hj. unfold run, handleSave.
  rewrite (guard_complete s Hc).
  unfold try_catch_finally, bind, fetch, perform, await, modify; cbn.
  rewrite Hok, Hj. reflexivity.
Qed.

Lemma handleSave_refused (s : AppState) (res : Response Place.t) :
  complete s -> ok res = false ->
  run (handleSave s (Js.Resolved res)) s =
  (Normal tt,
   {| state := withLoading false s;
      log := [postOf s; AlertAlert "Erro" "Falha ao salvar o registro."] |}).
Proof.
  intros Hc Hok. unfold run, handleSave.
  rewrite (guard_complete s Hc).
  unfold try_catch_finally, bind, fetch, perform, await, modify; cbn.
  rewrite Hok. reflexivity.
Qed.

Lemma handleSave_unreachable (s : AppState) (e : Js.Error) :
  complete s ->
  run (handleSave s (Js.Rejected e)) s =
  (Normal tt,
   {| state := withLoading false s;
      log := [postOf s; ConsoleError e;
              AlertAlert "Erro" "Falha na conexão com o backend."] |}).
Proof.
  intros Hc. unfold run, handleSave.
  rewrite (guard_complete s Hc). reflexivity.
Qed.

Lemma handleSave_unparsable (s : AppState) (res : Response Place.t) (e : Js.Error) :
  complete s -> ok res = true -> json res = Js.Rejected e ->
  run (handleSave s (Js.Resolved res)) s =
  (Normal tt,
   {| state := withLoading false s;
      log := [postOf s; ConsoleError e;
              AlertAlert "Erro" "Falha na conexão com o backend."] |}).
Proof.
  intros Hc Hok Hj. unfold run, handleSave.
  rewrite (guard_complete s Hc).
  unfold try_catch_finally, bind, fetch, perform, await, modify; cbn.
  rewrite Hok, Hj. reflexivity.
Qed.

Lemma handleSave_invalid (s : AppState) (answer : Js.Settled (Response Place.t)) :
  title s = "" \/ description s = "" \/ latitude s = None \/ longitude s = None ->
  run (handleSave s answer) s =
  (Normal tt,
   {| state := s;
      log := [AlertAlert "Atenção"
                "Preencha título, descrição e capture a localização."] |}).
Proof.
  intros H. unfold run, handleSave.
  rewrite (guard_incomplete s H). reflexivity.
Qed.

Lemma complete_or_not (s : AppState) :
  complete s \/
  (title s = "" \/ description s = "" \/ latitude s = None \/ longitude s = None).
Proof.
  unfold complete.
  destruct (title s); [right; now left |].
  destruct (description s); [right; right; now left |].
  destruct (latitude s); [| right; right; right; now left].
  destruct (longitude s); [| right; right; right; now right].
  left; repeat split; congruence.
Qed.

(** Every way [handleSave] can end, as seen on the component state. *)
Lemma handleSave_final (s : AppState) (answer : Js.Settled (Response Place.t)) :
  final (handleSave s answer) s = s \/
  final (handleSave s answer) s = withLoading false s \/
  exists created,
    final (handleSave s answer) s =
    {| title := ""; description := ""; latitude := None; longitude := None;
       photo := None; places := created :: places s; loading := false |}.
Proof.
  unfold final.
  destruct (complete_or_not s) as [Hc | Hn].
  - destruct answer as [res | e].
    + destruct (ok res) eqn:Hok.
      * destruct (json res) as [created | e] eqn:Hj.
        -- right; right; exists created.
           now rewrite (handleSave_created s res created Hc Hok Hj).
        -- right; left. now rewrite (handleSave_unparsable s res e Hc Hok Hj).
      * right; left. now rewrite (handleSave_refused s res Hc Hok).
    + right; left. now rewrite (handleSave_unreachable s e Hc).
  - left. now rewrite (handleSave_invalid s answer Hn).
Qed.

(** [takePhoto] writes at most the [photo] cell. *)
Lemma takePhoto_frame (s : AppState) permission capture :
  exists p,
    final (takePhoto permission capture) s =
    {| title := title s; description := description s;
       latitude := latitude s; longitude := longitude s;
       photo := p; places := places s; loading := loading s |}.
Proof.
  unfold final, run, takePhoto.
  destruct s as [t d la lo ph pl ld].
  destruct permission as [[st] | e]; cbn; [| eexists; reflexivity].
  destruct (st =? "granted")%string; cbn; [| eexists; reflexivity].
  destruct capture as [[c a] | e]; cbn; [| eexists; reflexivity].
  destruct c; cbn; [eexists; reflexivity |].
  destruct a as [[| [b u] rest] |]; cbn; try (eexists; reflexivity).
  destruct (Js.truthy_opt b); cbn; [eexists; reflexivity |].
  destruct (Js.truthy_opt u); cbn; eexists; reflexivity.
Qed.

(** [getLocation] leaves the state alone or stores both coordinates. *)
Lemma getLocation_final (s : AppState) permission position :
  final (getLocation permission position) s = s \/
  exists la lo,
    final (getLocation permission position) s =
    {| title := title s; description := description s;
       latitude := Some la; longitude := Some lo;
       photo := photo s; places := places s; loading := loading s |}.
Proof.
  unfold final, run, getLocation.
  destruct s as [t d la lo ph pl ld].
  destruct permission as [[st] | e]; cbn; [| now left].
  destruct (st =? "granted")%string; cbn; [| now left].
  destruct position as [[[la' lo']] | e]; cbn; [| now left].
  right; now exists la', lo'.
Qed.

(** [fetchPlaces] writes at most the [places] cell. *)
Lemma fetchPlaces_frame (s : AppState) answer :
  exists l,
    final (fetchPlaces answer) s =
    {| title := title s; description := description s;
       latitude := latitude s; longitude := longitude s;
       photo := photo s; places := l; loading := loading s |}.
Proof.
  unfold final, run, fetchPlaces.
  destruct s as [t d la lo ph pl ld].
  destruct answer as [[st [data | e]] | e]; cbn; eexists; reflexivity.
Qed.

Lemma step_paired (s : AppState) (ev : Event) :
  coords_paired s -> coords_paired (step s ev).
Proof.
  unfold step, coords_paired. intros H.
  destruct ev as [answer | text | text | pm ps | pm cp | | answer]; cbn [dispatch].
  - destruct (fetchPlaces_frame s answer) as [l ->]. exact H.
  - exact H.
  - exact H.
  - destruct (getLocation_final s pm ps) as [-> | (la & lo & ->)];
      [exact H | cbn; split; discriminate].
  - destruct (takePhoto_frame s pm cp) as [p ->]. exact H.
  - exact H.
  - destruct (loading s); [exact H |].
    destruct (handleSave_final s answer) as [-> | [-> | [created ->]]];
      [exact H | exact H | cbn; tauto].
Qed.

Lemma handleSave_sends (s : AppState) (answer : Js.Settled (Response Place.t)) :
  complete s ->
  exists rest,
    effects (handleSave s answer) s = postOf s :: rest /\
    ~ In validationAlert rest.
Proof.
  intros Hc. unfold effects.
  destruct answer as [res | e].
  - destruct (ok res) eqn:Hok.
    + destruct (json res) as [created | e] eqn:Hj.
      * rewrite (handleSave_created s res created Hc Hok Hj).
        eexists; split; [reflexivity |].
        cbn; intros [H | []]; discriminate H.
      * rewrite (handleSave_unparsable s res e Hc Hok Hj).
        eexists; split; [reflexivity |].
        cbn; intros [H | [H | []]]; discriminate H.
    + rewrite (handleSave_refused s res Hc Hok).
      eexists; split; [reflexivity |].
      cbn; intros [H | []]; discriminate H.
  - rewrite (handleSave_unreachable s e Hc).
    eexists; split; [reflexivity |].
    cbn; intros [H | [H | []]]; discriminate H.
Qed.

(** ** Submission *)

(** C1. Whenever a complete draft is submitted and the service answers with a
    success status and a created record, the record is put at the head of the
    places list, whose length grows by exactly one, and title, description,
    latitude, longitude and photo are all reset to their empty values. *)
Theorem handleSave_success_prepends_and_clears
    (s : AppState) (res : Response Place.t) (created : Place.t) :
  title s <> "" -> description s <> "" ->
  latitude s <> None -> longitude s <> None ->
  ok res = true -> json res = Js.Resolved created ->
  places (final (handleSave s (Js.Resolved res)) s) = created :: places s /\
  length (places (final (handleSave s (Js.Resolved res)) s)) = S (length (places s)) /\
  hd_error (places (final (handleSave s (Js.Resolved res)) s)) = Some created /\
  title (final (handleSave s (Js.Resolved res)) s) = "" /\
  description (final (handleSave s (Js.Resolved res)) s) = "" /\
  latitude (final (handleSave s (Js.Resolved res)) s) = None /\
  longitude (final (handleSave s (Js.Resolved res)) s) = None /\
  photo (final (handleSave s (Js.Resolved res)) s) = None.
Proof.
  intros Ht Hd Hla Hlo Hok Hj. unfold final.
  rewrite (handleSave_created s res created (conj Ht (conj Hd (conj Hla Hlo))) Hok Hj).
  cbn. repeat split.
Qed.

Lemma handleSave_success_prepends_and_clears_witness :
  places (final (handleSave boaViagemDraft (Js.Resolved createdResponse)) boaViagemDraft)
    = [boaViagem] /\
  photo (final (handleSave boaViagemDraft (Js.Resolved createdResponse)) boaViagemDraft)
    = None.
Proof.
  pose proof (handleSave_success_prepends_and_clears
                boaViagemDraft createdResponse boaViagem) as H.
  destruct H as (Hp & _ & _ & _ & _ & _ & _ & Hph);
    try (cbn; discriminate); try reflexivity.
  split; [exact Hp | exact Hph].
Defined.

(** C2. A submission whose title is empty, whose description is empty, or
    whose latitude or longitude is absent sends no request, shows the
    validation notification and leaves the whole state (draft, list, loading
    flag) as it was; a draft without a photo whose other four fields are
    present is sent. *)
Theorem handleSave_requires_all_but_photo :
  (forall (s : AppState) (answer : Js.Settled (Response Place.t)),
     title s = "" \/ description s = "" \/ latitude s = None \/ longitude s = None ->
     final (handleSave s answer) s = s /\
     effects (handleSave s answer) s = [validationAlert] /\
     existsb is_fetch (effects (handleSave s answer) s) = false) /\
  (forall (s : AppState) (answer : Js.Settled (Response Place.t)),
     title s <> "" -> description s <> "" ->
     latitude s <> None -> longitude s <> None -> photo s = None ->
     exists rest,
       effects (handleSave s answer) s = postOf s :: rest /\
       ~ In validationAlert rest).
Proof.
  split.
  - intros s answer H. unfold final, effects.
    rewrite (handleSave_invalid s answer H). cbn. repeat split.
  - intros s answer Ht Hd Hla Hlo _.
    apply handleSave_sends. repeat split; assumption.
Qed.

Lemma handleSave_requires_all_but_photo_witness :
  final (handleSave initial (Js.Resolved createdResponse)) initial = initial /\
  exists rest,
    effects (handleSave boaViagemDraft (Js.Resolved createdResponse)) boaViagemDraft
      = postOf boaViagemDraft :: rest /\
    ~ In validationAlert rest.
Proof.
  split.
  - apply (proj1 handleSave_requires_all_but_photo initial (Js.Resolved createdResponse)).
    left; reflexivity.
  - apply (proj2 handleSave_requires_all_but_photo boaViagemDraft
             (Js.Resolved createdResponse));
      try (cbn; discriminate); reflexivity.
Defined.

(** C3. When a complete draft is submitted and the creation fails, by a
    non-success status or by an exception, the places list and the five draft
    fields are as before, the state differs from the one before at most in
    the loading flag, which is false, and exactly one notification, a failure
    one, is shown. *)
Theorem handleSave_failure_keeps_draft
    (s : AppState) (answer : Js.Settled (Response Place.t)) :
  title s <> "" -> description s <> "" ->
  latitude s <> None -> longitude s <> None ->
  failed answer ->
  final (handleSave s answer) s = withLoading false s /\
  places (final (handleSave s answer) s) = places s /\
  title (final (handleSave s answer) s) = title s /\
  description (final (handleSave s answer) s) = description s /\
  latitude (final (handleSave s answer) s) = latitude s /\
  longitude (final (handleSave s answer) s) = longitude s /\
  photo (final (handleSave s answer) s) = photo s /\
  loading (final (handleSave s answer) s) = false /\
  exists text,
    filter is_alert (effects (handleSave s answer) s) = [AlertAlert "Erro" text].
Proof.
  intros Ht Hd Hla Hlo Hf.
  assert (Hc : complete s) by (repeat split; assumption).
  unfold final, effects.
  destruct Hf as [e | res Hok | res e Hok Hj].
  - rewrite (handleSave_unreachable s e Hc). cbn.
    repeat split. eexists; reflexivity.
  - rewrite (handleSave_refused s res Hc Hok). cbn.
    repeat split. eexists; reflexivity.
  - rewrite (handleSave_unparsable s res e Hc Hok Hj). cbn.
    repeat split. eexists; reflexivity.
Qed.

Lemma handleSave_failure_keeps_draft_witness :
  final (handleSave boaViagemDraft (Js.Resolved serverError)) boaViagemDraft
    = withLoading false boaViagemDraft.
Proof.
  apply (handleSave_failure_keeps_draft boaViagemDraft (Js.Resolved serverError));
    try (cbn; discriminate).
  apply failed_status. reflexivity.
Defined.

(** C8. Whenever a complete draft is submitted, the loading flag is false
    once [handleSave] has run, whatever the answer: a created record, a
    non-success status, a rejected request or an unreadable body.  A draft
    that fails validation returns before the flag is written: it keeps its
    value. *)
Theorem handleSave_clears_loading
    (s : AppState) (answer : Js.Settled (Response Place.t)) :
  (title s <> "" -> description s <> "" ->
   latitude s <> None -> longitude s <> None ->
   loading (final (handleSave s answer) s) = false) /\
  (title s = "" \/ description s = "" \/ latitude s = None \/ longitude s = None ->
   loading (final (handleSave s answer) s) = loading s).
Proof.
  split.
  - intros Ht Hd Hla Hlo.
    assert (Hc : complete s) by (repeat split; assumption).
    unfold final.
    destruct answer as [res | e].
    + destruct (ok res) eqn:Hok.
      * destruct (json res) as [created | e] eqn:Hj.
        -- now rewrite (handleSave_created s res created Hc Hok Hj).
        -- now rewrite (handleSave_unparsable s res e Hc Hok Hj).
      * now rewrite (handleSave_refused s res Hc Hok).
    + now rewrite (handleSave_unreachable s e Hc).
  - intros Hn. unfold final. now rewrite (handleSave_invalid s answer Hn).
Qed.

Lemma handleSave_clears_loading_witness :
  loading (final (handleSave (withLoading true boaViagemDraft)
                             (Js.Resolved serverError))
                 (withLoading true boaViagemDraft)) = false.
Proof.
  apply (proj1 (handleSave_clears_loading (withLoading true boaViagemDraft)
                  (Js.Resolved serverError))); cbn; discriminate.
Defined.

(** C10. A draft with a non-empty title, a non-empty description and both
    coordinates equal to zero passes the guard: the POST request is the first
    effect, it carries the zero coordinates, and no validation notification
    is shown. *)
Theorem handleSave_accepts_zero_coordinates
    (s : AppState) (answer : Js.Settled (Response Place.t)) (sla slo : bool) :
  title s <> "" -> description s <> "" ->
  latitude s = Some (S754_zero sla) -> longitude s = Some (S754_zero slo) ->
  exists rest,
    effects (handleSave s answer) s =
      Fetch "http://192.168.0.109:3000/api/places"
        (Some {| method := "POST";
                 headers := [("Content-Type", "application/json")];
                 body := {| body_title := title s;
                            body_description := description s;
                            body_latitude := Some (S754_zero sla);
                            body_longitude := Some (S754_zero slo);
                            body_photo := photo s |} |}) :: rest /\
    ~ In validationAlert (effects (handleSave s answer) s).
Proof.
  intros Ht Hd Hla Hlo.
  assert (Hc : complete s).
  { repeat split; try assumption; congruence. }
  destruct (handleSave_sends s answer Hc) as (rest & He & Hn).
  exists rest. rewrite He. split.
  - unfold postOf. now rewrite Hla, Hlo.
  - intros [H | H]; [discriminate H | exact (Hn H)].
Qed.

Lemma handleSave_accepts_zero_coordinates_witness :
  exists rest,
    effects (handleSave originDraft (Js.Resolved createdResponse)) originDraft =
      postOf originDraft :: rest /\
    ~ In validationAlert
         (effects (handleSave originDraft (Js.Resolved createdResponse)) originDraft).
Proof.
  apply (handleSave_accepts_zero_coordinates originDraft
           (Js.Resolved createdResponse) false false);
    try (cbn; discriminate); reflexivity.
Defined.

(** ** Initial fetch *)

(** A rejected request or an unreadable body leaves the list as it was and
    shows one notification, after a single request. *)
Lemma fetchPlaces_rejected (s : AppState) (e : Js.Error) :
  run (fetchPlaces (Js.Rejected e)) s =
  (Normal tt,
   {| state := s;
      log := [listRequest; ConsoleError e;
              AlertAlert "Erro" "Não foi possível carregar os registros"] |}).
Proof. reflexivity. Qed.

Lemma fetchPlaces_unparsable (s : AppState) (st : Z) (e : Js.Error) :
  run (fetchPlaces (Js.Resolved {| status := st; json := Js.Rejected e |})) s =
  (Normal tt,
   {| state := s;
      log := [listRequest; ConsoleError e;
              AlertAlert "Erro" "Não foi possível carregar os registros"] |}).
Proof. reflexivity. Qed.

(** A response whose body parses replaces the list whatever its status:
    [res.ok] is never read. *)
Lemma fetchPlaces_parsed (s : AppState) (st : Z) (data : list Place.t) :
  places (final (fetchPlaces (Js.Resolved {| status := st; json := Js.Resolved data |})) s)
    = data /\
  effects (fetchPlaces (Js.Resolved {| status := st; json := Js.Resolved data |})) s
    = [listRequest].
Proof. split; reflexivity. Qed.

(** C4. At a response with status 500 whose body parses, received on the
    initial state, [fetchPlaces] replaces the list by the body and shows no
    notification: the non-success response is treated as a success. *)
Theorem fetchPlaces_ignores_status :
  ok errorWithBody = false /\
  places initial = [] /\
  places (final (fetchPlaces (Js.Resolved errorWithBody)) initial) = [boaViagem] /\
  filter is_alert (effects (fetchPlaces (Js.Resolved errorWithBody)) initial) = [] /\
  filter is_fetch (effects (fetchPlaces (Js.Resolved errorWithBody)) initial)
    = [listRequest].
Proof. repeat split. Qed.

(** ** Photo capture *)

Lemma takePhoto_base64 (s : AppState) (perm : PermissionResponse)
    (r : ImagePickerResult) (a : ImagePickerAsset) (rest : list ImagePickerAsset)
    (b : string) :
  perm_status perm = "granted" -> canceled r = false ->
  assets r = Some (a :: rest) -> base64 a = Some b -> b <> "" ->
  run (takePhoto (Js.Resolved perm) (Js.Resolved r)) s =
  (Normal tt,
   {| state := withPhoto (Some ("data:image/jpeg;base64," ++ b)) s;
      log := [RequestCameraPermissions; LaunchCamera cameraOptions] |}).
Proof.
  intros Hp Hc Ha Hb Hne. apply truthy_true_iff in Hne.
  unfold run, takePhoto. cbn. rewrite Hp. cbn. rewrite Hc, Ha. cbn.
  rewrite Hb. cbn. rewrite Hne. reflexivity.
Qed.

Lemma takePhoto_uri (s : AppState) (perm : PermissionResponse)
    (r : ImagePickerResult) (a : ImagePickerAsset) (rest : list ImagePickerAsset)
    (u : string) :
  perm_status perm = "granted" -> canceled r = false ->
  assets r = Some (a :: rest) ->
  base64 a = None \/ base64 a = Some "" -> uri a = Some u -> u <> "" ->
  run (takePhoto (Js.Resolved perm) (Js.Resolved r)) s =
  (Normal tt,
   {| state := withPhoto (Some u) s;
      log := [RequestCameraPermissions; LaunchCamera cameraOptions] |}).
Proof.
  intros Hp Hc Ha Hb Hu Hne. apply truthy_true_iff in Hne.
  unfold run, takePhoto. cbn. rewrite Hp. cbn. rewrite Hc, Ha. cbn.
  destruct Hb as [Hb | Hb]; rewrite Hb, Hu; cbn; rewrite Hne; reflexivity.
Qed.

(** C5. For a capture that is not cancelled and whose first asset carries a
    raw URI: when the asset also carries a base64 payload (a non-empty string,
    the test of line 80), the stored photo is
    [data:image/jpeg;base64,<payload>]; the raw URI is what is stored when the
    payload is absent (null, missing or empty).  Nothing else changes. *)
Theorem takePhoto_prefers_base64
    (s : AppState) (perm : PermissionResponse) (r : ImagePickerResult)
    (a : ImagePickerAsset) (rest : list ImagePickerAsset) (u : string) :
  perm_status perm = "granted" -> canceled r = false ->
  assets r = Some (a :: rest) -> uri a = Some u -> u <> "" ->
  (forall b, base64 a = Some b -> b <> "" ->
     final (takePhoto (Js.Resolved perm) (Js.Resolved r)) s =
     withPhoto (Some ("data:image/jpeg;base64," ++ b)) s) /\
  (base64 a = None \/ base64 a = Some "" ->
     final (takePhoto (Js.Resolved perm) (Js.Resolved r)) s = withPhoto (Some u) s).
Proof.
  intros Hp Hc Ha Hu Hne. unfold final. split.
  - intros b Hb Hbne.
    now rewrite (takePhoto_base64 s perm r a rest b Hp Hc Ha Hb Hbne).
  - intros Hb.
    now rewrite (takePhoto_uri s perm r a rest u Hp Hc Ha Hb Hu Hne).
Qed.

Lemma takePhoto_prefers_base64_witness :
  photo (final (takePhoto (Js.Resolved granted) (Js.Resolved shotResult)) initial)
    = Some "data:image/jpeg;base64,QUJD".
Proof.
  refine (f_equal photo
            (proj1 (takePhoto_prefers_base64 initial granted shotResult shot []
                      "file:///cache/photo.jpg" eq_refl eq_refl eq_refl eq_refl _)
                   "QUJD" eq_refl _));
    discriminate.
Defined.

(** C6. When permission is granted and the camera result is cancelled, the
    state, and with it the photo, is exactly as before, and the effects are
    the permission request and the camera launch: no notification. *)
Theorem takePhoto_cancel_is_silent
    (s : AppState) (perm : PermissionResponse) (r : ImagePickerResult) :
  perm_status perm = "granted" -> canceled r = true ->
  final (takePhoto (Js.Resolved perm) (Js.Resolved r)) s = s /\
  photo (final (takePhoto (Js.Resolved perm) (Js.Resolved r)) s) = photo s /\
  effects (takePhoto (Js.Resolved perm) (Js.Resolved r)) s
    = [RequestCameraPermissions; LaunchCamera cameraOptions] /\
  filter is_alert (effects (takePhoto (Js.Resolved perm) (Js.Resolved r)) s) = [].
Proof.
  intros Hp Hc.
  assert (H : run (takePhoto (Js.Resolved perm) (Js.Resolved r)) s =
              (Normal tt,
               {| state := s;
                  log := [RequestCameraPermissions; LaunchCamera cameraOptions] |})).
  { unfold run, takePhoto. cbn. rewrite Hp. cbn. rewrite Hc. reflexivity. }
  unfold final, effects. rewrite H. cbn. repeat split.
Qed.

Lemma takePhoto_cancel_is_silent_witness :
  final (takePhoto (Js.Resolved granted) (Js.Resolved cancelledResult))
        (withPhoto (Some "file:///old.jpg") initial)
    = withPhoto (Some "file:///old.jpg") initial.
Proof.
  apply (takePhoto_cancel_is_silent (withPhoto (Some "file:///old.jpg") initial)
           granted cancelledResult); reflexivity.
Defined.

(** ** Coordinates *)

(** C9. In the initial state and after any sequence of events (mount, typing,
    location capture, photo capture, photo removal, submission, each with any
    answer from the outside world) the latitude is null if and only if the
    longitude is. *)
Theorem coords_always_paired (evs : list Event) : coords_paired (after evs).
Proof.
  unfold after.
  assert (H : coords_paired initial) by (unfold coords_paired; cbn; tauto).
  revert H. generalize initial as s.
  induction evs as [| ev evs IH]; intros s H; cbn.
  - exact H.
  - apply IH. now apply step_paired.
Qed.

(** ** Rendering *)

(** [nearest_scaled] rounds to the nearest integer, halves upwards:
    [n - 1/2 <= m * 2^e * 10^f < n + 1/2]. *)
Lemma nearest_scaled_nearest (m : positive) (e : Z) (f : N) :
  e < 0 ->
  let n := Js.nearest_scaled m e f in
  (2 * n - 1) * 2 ^ (- e) <= 2 * Z.pos m * 10 ^ Z.of_N f < (2 * n + 1) * 2 ^ (- e).
Proof.
  intros He n. subst n. unfold Js.nearest_scaled.
  destruct (0 <=? e) eqn:Hle; [apply Z.leb_le in Hle; lia |].
  assert (Hd : 0 < 2 ^ (- e)) by (apply Z.pow_pos_nonneg; lia).
  replace (2 ^ (- e + 1)) with (2 * 2 ^ (- e)) by (rewrite Z.pow_add_r by lia; lia).
  set (d := 2 ^ (- e)) in *. set (a := 2 * Z.pos m * 10 ^ Z.of_N f).
  pose proof (Z.div_mod (a + d) (2 * d) ltac:(lia)) as Hdm.
  pose proof (Z.mod_pos_bound (a + d) (2 * d) ltac:(lia)) as Hb.
  set (q := (a + d) / (2 * d)) in *. nia.
Qed.

(** [Js.literal] yields the binary64 value nearest to each coordinate: a
    53-bit significand [m] at exponent [e] within half a unit in the last
    place of the decimal, [|m * 2^e - d / 10^6| <= 2^e / 2]. *)
Example literal_latitude :
  exists m,
    Js.literal false 12345678 6 = S754_finite false m (-49) /\
    2 ^ 52 <= Z.pos m < 2 ^ 53 /\
    2 * Z.abs (Z.pos m * 10 ^ 6 - 12345678 * 2 ^ 49) <= 10 ^ 6.
Proof. eexists. split; [vm_compute; reflexivity | vm_compute; intuition discriminate]. Qed.

Example literal_longitude :
  exists m,
    Js.literal true 38123456 6 = S754_finite true m (-47) /\
    2 ^ 52 <= Z.pos m < 2 ^ 53 /\
    2 * Z.abs (Z.pos m * 10 ^ 6 - 38123456 * 2 ^ 47) <= 10 ^ 6.
Proof. eexists. split; [vm_compute; reflexivity | vm_compute; intuition discriminate]. Qed.

(** [toFixed] on a few receivers: ties go up in magnitude, a binary value
    just below a decimal tie goes down, short results are zero-padded. *)
Example toFixed_zero : Js.toFixed (S754_zero false) 4 = Some "0.0000".
Proof. reflexivity. Qed.

Example toFixed_half : Js.toFixed (Js.literal false 25 1) 0 = Some "3".
Proof. vm_compute. reflexivity. Qed.

Example toFixed_below_tie : Js.toFixed (Js.literal false 1005 3) 2 = Some "1.00".
Proof. vm_compute. reflexivity. Qed.

Example toFixed_small_negative : Js.toFixed (Js.literal true 1 5) 4 = Some "-0.0000".
Proof. vm_compute. reflexivity. Qed.

Example toFixed_integer : Js.toFixed (Js.literal false 90 0) 4 = Some "90.0000".
Proof. vm_compute. reflexivity. Qed.

(** C7. A list item with latitude 12.345678 and longitude -38.123456 shows
    the coordinate text "12.3457, -38.1235": four decimals each, rounded to
    nearest. *)
Theorem cardCoordsText_example
    (id t d : string) (ph ca : option string) :
  cardCoordsText
    {| Place._id := id; Place.title := t; Place.description := d;
       Place.latitude := Js.literal false 12345678 6;
       Place.longitude := Js.literal true 38123456 6;
       Place.photo := ph; Place.createdAt := ca |}
  = Some "12.3457, -38.1235".
Proof. vm_compute. reflexivity. Qed.

(** * Further properties of the handlers *)

(** ** Location capture, lines 56-65 *)

(** X1. When the permission answer is anything but ["granted"], [getLocation]
    shows the permission notification and stops: the position is never
    requested and the state is as before. *)
Theorem getLocation_denied_stops
    (s : AppState) (perm : PermissionResponse) (position : Js.Settled LocationObject) :
  perm_status perm <> "granted" ->
  run (getLocation (Js.Resolved perm) position) s =
  (Normal tt,
   {| state := s; log := [RequestForegroundPermissions; locationDenied] |}).
Proof.
  intros Hp. apply String.eqb_neq in Hp.
  unfold run, getLocation. cbn. rewrite Hp. reflexivity.
Qed.

Lemma getLocation_denied_stops_witness :
  run (getLocation (Js.Resolved denied) (Js.Resolved recife)) boaViagemDraft =
  (Normal tt,
   {| state := boaViagemDraft;
      log := [RequestForegroundPermissions; locationDenied] |}).
Proof.
  apply (getLocation_denied_stops boaViagemDraft denied (Js.Resolved recife)).
  discriminate.
Defined.

(** X2. With permission granted and a position reading, [getLocation] stores
    the reading's latitude and longitude, replacing any earlier pair, changes
    no other cell, and shows nothing. *)
Theorem getLocation_stores_reading
    (s : AppState) (perm : PermissionResponse) (location : LocationObject) :
  perm_status perm = "granted" ->
  run (getLocation (Js.Resolved perm) (Js.Resolved location)) s =
  (Normal tt,
   {| state := withCoords (coords_latitude (coords location))
                          (coords_longitude (coords location)) s;
      log := [RequestForegroundPermissions; GetCurrentPosition] |}).
Proof.
  intros Hp. unfold run, getLocation. cbn. rewrite Hp. reflexivity.
Qed.

Lemma getLocation_stores_reading_witness :
  final (getLocation (Js.Resolved granted) (Js.Resolved recife)) originDraft =
  withCoords (Js.literal true 812 2) (Js.literal true 3490 2) originDraft.
Proof.
  exact (f_equal (fun r => state (snd r))
           (getLocation_stores_reading originDraft granted recife eq_refl)).
Defined.

(** X3. Neither capture handler has a [catch]: when the permission promise
    or the capture promise rejects, the handler itself rejects with that
    error, nothing is shown and the state is as before. *)
Theorem capture_rejections_escape
    (s : AppState) (perm : PermissionResponse) (e : Js.Error) :
  (forall position,
     run (getLocation (Js.Rejected e) position) s =
     (Throw e, {| state := s; log := [RequestForegroundPermissions] |})) /\
  (forall capture,
     run (takePhoto (Js.Rejected e) capture) s =
     (Throw e, {| state := s; log := [RequestCameraPermissions] |})) /\
  (perm_status perm = "granted" ->
     run (getLocation (Js.Resolved perm) (Js.Rejected e)) s =
     (Throw e,
      {| state := s; log := [RequestForegroundPermissions; GetCurrentPosition] |}) /\
     run (takePhoto (Js.Resolved perm) (Js.Rejected e)) s =
     (Throw e,
      {| state := s;
         log := [RequestCameraPermissions; LaunchCamera cameraOptions] |})).
Proof.
  repeat split.
  - unfold run, getLocation. cbn. rewrite H. reflexivity.
  - unfold run, takePhoto. cbn. rewrite H. reflexivity.
Qed.

Lemma capture_rejections_escape_witness :
  fst (run (getLocation (Js.Resolved granted) (Js.Rejected offline)) initial)
    = Throw offline.
Proof.
  exact (f_equal fst
           (proj1 (proj2 (proj2 (capture_rejections_escape initial granted offline))
                         eq_refl))).
Defined.

(** ** Photo capture, lines 67-86 *)

(** X4. When the camera permission answer is anything but ["granted"],
    [takePhoto] shows the permission notification and stops: the camera is
    never launched and the state is as before. *)
Theorem takePhoto_denied_stops
    (s : AppState) (perm : PermissionResponse) (capture : Js.Settled ImagePickerResult) :
  perm_status perm <> "granted" ->
  run (takePhoto (Js.Resolved perm) capture) s =
  (Normal tt, {| state := s; log := [RequestCameraPermissions; cameraDenied] |}).
Proof.
  intros Hp. apply String.eqb_neq in Hp.
  unfold run, takePhoto. cbn. rewrite Hp. reflexivity.
Qed.

Lemma takePhoto_denied_stops_witness :
  run (takePhoto (Js.Resolved denied) (Js.Resolved shotResult)) initial =
  (Normal tt, {| state := initial; log := [RequestCameraPermissions; cameraDenied] |}).
Proof.
  apply (takePhoto_denied_stops initial denied (Js.Resolved shotResult)).
  discriminate.
Defined.

(** X5. A capture that is not cancelled but brings nothing usable (the asset
    array is null or empty, or the first asset has neither a non-empty base64
    payload nor a non-empty URI) changes nothing and shows nothing. *)
Theorem takePhoto_nothing_usable
    (s : AppState) (perm : PermissionResponse) (r : ImagePickerResult) :
  perm_status perm = "granted" -> canceled r = false ->
  assets r = None \/ assets r = Some [] \/
  (exists a rest, assets r = Some (a :: rest) /\
                  Js.truthy_opt (base64 a) = false /\ Js.truthy_opt (uri a) = false) ->
  run (takePhoto (Js.Resolved perm) (Js.Resolved r)) s =
  (Normal tt,
   {| state := s; log := [RequestCameraPermissions; LaunchCamera cameraOptions] |}).
Proof.
  intros Hp Hc Ha. unfold run, takePhoto. cbn. rewrite Hp. cbn. rewrite Hc. cbn.
  destruct Ha as [-> | [-> | (a & rest & -> & Hb & Hu)]]; try reflexivity.
  rewrite Hb, Hu. reflexivity.
Qed.

Lemma takePhoto_nothing_usable_witness :
  final (takePhoto (Js.Resolved granted)
           (Js.Resolved {| canceled := false;
                           assets := Some [ {| base64 := Some ""; uri := None |} ] |}))
        boaViagemDraft
  = boaViagemDraft.
Proof.
  refine (f_equal (fun r => state (snd r))
            (takePhoto_nothing_usable boaViagemDraft granted
               {| canceled := false;
                  assets := Some [ {| base64 := Some ""; uri := None |} ] |}
               eq_refl eq_refl _)).
  right; right. eexists _, _. repeat split.
Defined.

(** Whatever the answers, [takePhoto] keeps the state or stores a non-empty
    photo. *)
Lemma takePhoto_photo (s : AppState) permission capture :
  final (takePhoto permission capture) s = s \/
  exists u, u <> "" /\ final (takePhoto permission capture) s = withPhoto (Some u) s.
Proof.
  unfold final, run, takePhoto.
  destruct s as [t d la lo ph pl ld].
  destruct permission as [[st] | e]; cbn; [| now left].
  destruct (st =? "granted")%string; cbn; [| now left].
  destruct capture as [[c a] | e]; cbn; [| now left].
  destruct c; cbn; [now left |].
  destruct a as [[| [b u] rest] |]; cbn; try (now left).
  destruct b as [[| c0 b] |]; cbn.
  - destruct u as [[| c1 u] |]; cbn; try (now left).
    right; eexists; split; [| reflexivity]. discriminate.
  - right; eexists; split; [| reflexivity]. discriminate.
  - destruct u as [[| c1 u] |]; cbn; try (now left).
    right; eexists; split; [| reflexivity]. discriminate.
Qed.

(** X6. Whatever the permission dialog and the camera answer, [takePhoto]
    either leaves the state as it was or writes the [photo] cell alone, and
    what it writes is a non-empty string taken from the first asset of the
    capture: the data URI of its base64 payload, or its URI.  It never stores
    null or the empty string. *)
Theorem takePhoto_writes_only_photo
    (s : AppState) (permission : Js.Settled PermissionResponse)
    (capture : Js.Settled ImagePickerResult) :
  final (takePhoto permission capture) s = s \/
  exists r a rest u,
    capture = Js.Resolved r /\ assets r = Some (a :: rest) /\ u <> "" /\
    ((exists b, base64 a = Some b /\ u = "data:image/jpeg;base64," ++ b) \/
     uri a = Some u) /\
    final (takePhoto permission capture) s = withPhoto (Some u) s.
Proof.
  unfold final, run, takePhoto.
  destruct s as [t d la lo ph pl ld].
  destruct permission as [[st] | e]; cbn; [| now left].
  destruct (st =? "granted")%string; cbn; [| now left].
  destruct capture as [[c a] | e]; cbn; [| now left].
  destruct c; cbn; [now left |].
  destruct a as [[| [b u] rest] |]; cbn; try (now left).
  destruct b as [[| c0 b] |]; cbn.
  - destruct u as [[| c1 u] |]; cbn; try (now left).
    right. eexists _, _, _, _. repeat split; [discriminate | now right].
  - right. eexists _, _, _, _. repeat split; [discriminate |].
    left. eexists. split; reflexivity.
  - destruct u as [[| c1 u] |]; cbn; try (now left).
    right. eexists _, _, _, _. repeat split; [discriminate | now right].
Qed.

(** ** Initial fetch, lines 45-54 *)

(** X7. When the body of the response parses, [fetchPlaces] replaces the list
    by the body (the previous list is dropped, not merged), changes no other
    cell, sends one request and shows nothing. *)
Theorem fetchPlaces_replaces_list
    (s : AppState) (res : Response (list Place.t)) (data : list Place.t) :
  json res = Js.Resolved data ->
  run (fetchPlaces (Js.Resolved res)) s =
  (Normal tt, {| state := withPlaces data s; log := [listRequest] |}).
Proof.
  intros Hj. unfold run, fetchPlaces, try_catch, try_catch_finally, bind, fetch,
    perform, await. cbn. rewrite Hj. reflexivity.
Qed.

Lemma fetchPlaces_replaces_list_witness :
  places (final (fetchPlaces (Js.Resolved {| status := 200; json := Js.Resolved [] |}))
                (withPlaces [boaViagem] initial)) = [].
Proof.
  exact (f_equal (fun r => places (state (snd r)))
           (fetchPlaces_replaces_list (withPlaces [boaViagem] initial)
              {| status := 200; json := Js.Resolved [] |} [] eq_refl)).
Defined.

(** X8. When the request is rejected or the body of the response cannot be
    read, [fetchPlaces] leaves every cell as it was, logs the error to the
    console and shows the loading-failure notification, after one request. *)
Theorem fetchPlaces_failure_keeps_list
    (s : AppState) (answer : Js.Settled (Response (list Place.t))) (e : Js.Error) :
  answer = Js.Rejected e \/
  (exists res, answer = Js.Resolved res /\ json res = Js.Rejected e) ->
  run (fetchPlaces answer) s =
  (Normal tt,
   {| state := s; log := [listRequest; ConsoleError e; fetchFailed] |}).
Proof.
  intros [-> | (res & -> & Hj)]; [reflexivity |].
  unfold run, fetchPlaces, try_catch, try_catch_finally, bind, fetch,
    perform, await. cbn. rewrite Hj. reflexivity.
Qed.

Lemma fetchPlaces_failure_keeps_list_witness :
  final (fetchPlaces (Js.Rejected offline)) (withPlaces [boaViagem] initial)
    = withPlaces [boaViagem] initial.
Proof.
  refine (f_equal (fun r => state (snd r))
            (fetchPlaces_failure_keeps_list (withPlaces [boaViagem] initial)
               (Js.Rejected offline) offline _)).
  left; reflexivity.
Defined.

(** ** Both network handlers *)

(** X9. [handleSave] and [fetchPlaces] catch everything: whatever the draft
    and whatever the network answers, each completes normally. *)
Theorem network_handlers_never_reject
    (c s : AppState) (post : Js.Settled (Response Place.t))
    (get : Js.Settled (Response (list Place.t))) :
  fst (run (handleSave c post) s) = Normal tt /\
  fst (run (fetchPlaces get) s) = Normal tt.
Proof.
  split.
  - unfold run, handleSave.
    destruct (negb (Js.truthy (title c)) || negb (Js.truthy (description c))
              || is_null (latitude c) || is_null (longitude c)); [reflexivity |].
    destruct post as [res | e]; [| reflexivity].
    unfold try_catch_finally, bind, fetch, perform, await, modify; cbn.
    destruct (ok res); cbn; [| reflexivity].
    destruct (json res); reflexivity.
  - unfold run, fetchPlaces.
    destruct get as [res | e]; [| reflexivity].
    unfold try_catch, try_catch_finally, bind, fetch, perform, await; cbn.
    destruct (json res); reflexivity.
Qed.

(** X10. Every run of [handleSave] shows exactly one notification and sends
    at most one request; when a request is sent it is the first effect, so no
    notification precedes it. *)
Theorem handleSave_one_alert_one_request
    (c s : AppState) (answer : Js.Settled (Response Place.t)) :
  length (filter is_alert (effects (handleSave c answer) s)) = 1%nat /\
  (length (filter is_fetch (effects (handleSave c answer) s)) <= 1)%nat /\
  (filter is_fetch (effects (handleSave c answer) s) = [] \/
   exists rest, effects (handleSave c answer) s = postOf c :: rest).
Proof.
  unfold effects, run, handleSave.
  destruct (negb (Js.truthy (title c)) || negb (Js.truthy (description c))
            || is_null (latitude c) || is_null (longitude c)).
  - cbn. repeat split; [lia | now left].
  - destruct answer as [res | e].
    + unfold try_catch_finally, bind, fetch, perform, await, modify; cbn.
      destruct (ok res); cbn.
      * destruct (json res); cbn; repeat split; try lia;
          right; eexists; reflexivity.
      * repeat split; try lia. right; eexists; reflexivity.
    + cbn. repeat split; try lia. right; eexists; reflexivity.
Qed.

(** ** Invariants of the screen *)

Lemma step_loading (s : AppState) (ev : Event) :
  loading s = false -> loading (step s ev) = false.
Proof.
  unfold step. intros H.
  destruct ev as [answer | text | text | pm ps | pm cp | | answer]; cbn [dispatch].
  - destruct (fetchPlaces_frame s answer) as [l ->]. exact H.
  - exact H.
  - exact H.
  - destruct (getLocation_final s pm ps) as [-> | (la & lo & ->)]; exact H.
  - destruct (takePhoto_frame s pm cp) as [p ->]. exact H.
  - exact H.
  - rewrite H.
    destruct (handleSave_final s answer) as [-> | [-> | [created ->]]];
      [exact H | reflexivity | reflexivity].
Qed.

(** X11. No handler that has run to completion leaves the screen loading:
    after any sequence of events the loading flag is false, so the save
    control is enabled again. *)
Theorem loading_always_cleared (evs : list Event) :
  loading (after evs) = false /\
  saveControl (after evs) =
  TouchableOpacity [Some "buttonPrimary"; None] HhandleSave false
    [Text [Some "buttonTextPrimary"] "Salvar Registro"].
Proof.
  assert (H : loading (after evs) = false).
  { unfold after.
    assert (H : loading initial = false) by reflexivity.
    revert H. generalize initial as s.
    induction evs as [| ev evs IH]; intros s H; cbn; [exact H |].
    apply IH. now apply step_loading. }
  split; [exact H |]. unfold saveControl. rewrite H. reflexivity.
Qed.

Lemma step_photo_usable (s : AppState) (ev : Event) :
  photo_usable s -> photo_usable (step s ev).
Proof.
  unfold step, photo_usable. intros H.
  destruct ev as [answer | text | text | pm ps | pm cp | | answer]; cbn [dispatch].
  - destruct (fetchPlaces_frame s answer) as [l ->]. exact H.
  - exact H.
  - exact H.
  - destruct (getLocation_final s pm ps) as [-> | (la & lo & ->)]; exact H.
  - destruct (takePhoto_photo s pm cp) as [-> | (u & Hu & ->)]; [exact H |].
    right. exists u. now split.
  - now left.
  - destruct (loading s); [exact H |].
    destruct (handleSave_final s answer) as [-> | [-> | [created ->]]];
      [exact H | exact H | now left].
Qed.

(** X12. After any sequence of events the draft photo is null or a non-empty
    string; hence the header never has a bare string child, and it shows the
    preview, with the photo as image source and the remove control, exactly
    when a photo is set. *)
Theorem preview_follows_photo (evs : list Event) :
  (photo (after evs) = None /\ preview (after evs) = []) \/
  (exists u,
     photo (after evs) = Some u /\ u <> "" /\
     preview (after evs) =
     [View [Some "previewContainer"]
        [Image u [Some "previewImage"];
         TouchableOpacity [Some "removePhotoBtn"] HsetPhotoNull false
           [MaterialIcons "close" 16 "#fff"]]]).
Proof.
  assert (H : photo_usable (after evs)).
  { unfold after.
    assert (H : photo_usable initial) by (now left).
    revert H. generalize initial as s.
    induction evs as [| ev evs IH]; intros s H; cbn; [exact H |].
    apply IH. now apply step_photo_usable. }
  unfold preview. destruct H as [H | (u & H & Hu)]; rewrite H.
  - left. now split.
  - right. exists u. apply truthy_true_iff in Hu as Ht. rewrite Ht.
    repeat split. exact Hu.
Qed.

(** X13. The list is only ever extended at its head or replaced by a fetch:
    for every event other than the mount fetch, the list after the event is
    the list before it with at most one element put in front. *)
Theorem places_only_grow_at_head (s : AppState) (ev : Event) :
  (forall answer, ev <> Mount answer) ->
  exists front,
    places (step s ev) = (front ++ places s)%list /\ (length front <= 1)%nat.
Proof.
  unfold step. intros Hm.
  destruct ev as [answer | text | text | pm ps | pm cp | | answer]; cbn [dispatch].
  - now destruct (Hm answer).
  - exists []. split; [reflexivity | cbn; lia].
  - exists []. split; [reflexivity | cbn; lia].
  - exists []. split; [| cbn; lia].
    destruct (getLocation_final s pm ps) as [-> | (la & lo & ->)]; reflexivity.
  - exists []. split; [| cbn; lia].
    destruct (takePhoto_frame s pm cp) as [p ->]. reflexivity.
  - exists []. split; [reflexivity | cbn; lia].
  - destruct (loading s); [exists []; split; [reflexivity | cbn; lia] |].
    destruct (handleSave_final s answer) as [-> | [-> | [created ->]]].
    + exists []. split; [reflexivity | cbn; lia].
    + exists []. split; [reflexivity | cbn; lia].
    + exists [created]. split; [reflexivity | cbn; lia].
Qed.

Lemma places_only_grow_at_head_witness :
  exists front,
    places (step boaViagemDraft (PressSave (Js.Resolved createdResponse)))
      = (front ++ places boaViagemDraft)%list /\ (length front <= 1)%nat.
Proof.
  apply (places_only_grow_at_head boaViagemDraft
           (PressSave (Js.Resolved createdResponse))).
  intros answer; discriminate.
Defined.

(** ** How the operations compose *)

(** X14. A failed submission can be retried as it is: after a failure the
    same press sends the same request again, and when that one succeeds the
    record is put in front of the list and the draft is cleared. *)
Theorem failed_save_can_be_retried
    (s : AppState) (bad : Js.Settled (Response Place.t))
    (res : Response Place.t) (created : Place.t) :
  title s <> "" -> description s <> "" ->
  latitude s <> None -> longitude s <> None -> loading s = false ->
  failed bad -> ok res = true -> json res = Js.Resolved created ->
  step s (PressSave bad) = s /\
  effects (dispatch (step s (PressSave bad)) (PressSave (Js.Resolved res)))
          (step s (PressSave bad))
    = [postOf s; AlertAlert "Sucesso" "Local salvo!"] /\
  step (step s (PressSave bad)) (PressSave (Js.Resolved res))
    = cleared (created :: places s).
Proof.
  intros Ht Hd Hla Hlo Hl Hf Hok Hj.
  assert (Hc : complete s) by (repeat split; assumption).
  assert (H1 : step s (PressSave bad) = s).
  { unfold step, final. cbn [dispatch]. rewrite Hl.
    destruct s as [t d la lo ph pl ld]. cbn in Hl. subst ld.
    destruct Hf as [e | r Hr | r e Hr Hb].
    - now rewrite (handleSave_unreachable _ e Hc).
    - now rewrite (handleSave_refused _ r Hc Hr).
    - now rewrite (handleSave_unparsable _ r e Hc Hr Hb). }
  rewrite H1. unfold step, final, effects. cbn [dispatch]. rewrite Hl.
  rewrite (handleSave_created s res created Hc Hok Hj). split; [reflexivity |].
  split; reflexivity.
Qed.

Lemma failed_save_can_be_retried_witness :
  step (step boaViagemDraft (PressSave (Js.Rejected offline)))
       (PressSave (Js.Resolved createdResponse))
    = cleared [boaViagem].
Proof.
  refine (proj2 (proj2 (failed_save_can_be_retried boaViagemDraft
                          (Js.Rejected offline) createdResponse boaViagem
                          _ _ _ _ eq_refl (failed_network offline) eq_refl eq_refl)));
    cbn; discriminate.
Defined.

(** X15. A record is not created twice by pressing save again: after a
    successful submission the draft is empty, so the next submission stops at
    the validation notification, sends nothing and leaves the list alone. *)
Theorem saved_draft_is_not_resent
    (s : AppState) (res : Response Place.t) (created : Place.t)
    (again : Js.Settled (Response Place.t)) :
  title s <> "" -> description s <> "" ->
  latitude s <> None -> longitude s <> None -> loading s = false ->
  ok res = true -> json res = Js.Resolved created ->
  run (dispatch (step s (PressSave (Js.Resolved res))) (PressSave again))
      (step s (PressSave (Js.Resolved res)))
    = (Normal tt,
       {| state := cleared (created :: places s); log := [validationAlert] |}).
Proof.
  intros Ht Hd Hla Hlo Hl Hok Hj.
  assert (Hc : complete s) by (repeat split; assumption).
  assert (H1 : step s (PressSave (Js.Resolved res)) = cleared (created :: places s)).
  { unfold step, final. cbn [dispatch]. rewrite Hl.
    now rewrite (handleSave_created s res created Hc Hok Hj). }
  rewrite H1. reflexivity.
Qed.

Lemma saved_draft_is_not_resent_witness :
  effects (dispatch (step boaViagemDraft (PressSave (Js.Resolved createdResponse)))
                    (PressSave (Js.Resolved createdResponse)))
          (step boaViagemDraft (PressSave (Js.Resolved createdResponse)))
    = [validationAlert].
Proof.
  refine (f_equal (fun r => log (snd r))
            (saved_draft_is_not_resent boaViagemDraft createdResponse boaViagem
               (Js.Resolved createdResponse) _ _ _ _ eq_refl eq_refl eq_refl));
    cbn; discriminate.
Defined.

(** X16. Recording a place from a fresh screen: the mount fetch returns
    [data], the user types a non-empty title and description, captures a
    location with permission granted and saves, and the service answers with
    a success status and the record [created].  Then the list is [created]
    followed by [data], the draft is empty, and the request that was sent
    carried the typed texts, the captured coordinates and a null photo. *)
Theorem record_a_place
    (get : Response (list Place.t)) (data : list Place.t) (t d : string)
    (perm : PermissionResponse) (location : LocationObject)
    (res : Response Place.t) (created : Place.t) :
  json get = Js.Resolved data -> t <> "" -> d <> "" ->
  perm_status perm = "granted" -> ok res = true -> json res = Js.Resolved created ->
  after [Mount (Js.Resolved get); ChangeTitle t; ChangeDescription d;
         PressLocation (Js.Resolved perm) (Js.Resolved location);
         PressSave (Js.Resolved res)]
    = cleared (created :: data) /\
  effects (dispatch
             (after [Mount (Js.Resolved get); ChangeTitle t; ChangeDescription d;
                     PressLocation (Js.Resolved perm) (Js.Resolved location)])
             (PressSave (Js.Resolved res)))
          (after [Mount (Js.Resolved get); ChangeTitle t; ChangeDescription d;
                  PressLocation (Js.Resolved perm) (Js.Resolved location)])
    = [Fetch "http://192.168.0.109:3000/api/places"
         (Some {| method := "POST";
                  headers := [("Content-Type", "application/json")];
                  body := {| body_title := t;
                             body_description := d;
                             body_latitude := Some (coords_latitude (coords location));
                             body_longitude := Some (coords_longitude (coords location));
                             body_photo := None |} |});
       AlertAlert "Sucesso" "Local salvo!"].
Proof.
  intros Hg Ht Hd Hp Hok Hj.
  set (s4 := {| title := t; description := d;
                latitude := Some (coords_latitude (coords location));
                longitude := Some (coords_longitude (coords location));
                photo := None; places := data; loading := false |}).
  assert (H4 : after [Mount (Js.Resolved get); ChangeTitle t; ChangeDescription d;
                      PressLocation (Js.Resolved perm) (Js.Resolved location)] = s4).
  { unfold after. cbn [fold_left].
    assert (H1 : step initial (Mount (Js.Resolved get)) = withPlaces data initial).
    { unfold step, final. cbn [dispatch].
      unfold run, fetchPlaces, try_catch, try_catch_finally, bind, fetch,
        perform, await. cbn. rewrite Hg. reflexivity. }
    rewrite H1.
    unfold step at 1, final. cbn [dispatch].
    unfold run, getLocation. cbn. rewrite Hp. reflexivity. }
  assert (Hc : complete s4) by (repeat split; cbn; congruence).
  split.
  - change (step
              (after [Mount (Js.Resolved get); ChangeTitle t; ChangeDescription d;
                      PressLocation (Js.Resolved perm) (Js.Resolved location)])
              (PressSave (Js.Resolved res)) = cleared (created :: data)).
    rewrite H4. unfold step, final. cbn [dispatch loading s4].
    now rewrite (handleSave_created s4 res created Hc Hok Hj).
  - rewrite H4. unfold effects. cbn [dispatch loading s4].
    now rewrite (handleSave_created s4 res created Hc Hok Hj).
Qed.

Lemma record_a_place_witness :
  after [Mount (Js.Resolved {| status := 200; json := Js.Resolved [] |});
         ChangeTitle "Praia de Boa Viagem"; ChangeDescription "Linda";
         PressLocation (Js.Resolved granted) (Js.Resolved recife);
         PressSave (Js.Resolved createdResponse)]
    = cleared [boaViagem].
Proof.
  refine (proj1 (record_a_place {| status := 200; json := Js.Resolved [] |} []
                   "Praia de Boa Viagem" "Linda" granted recife
                   createdResponse boaViagem eq_refl _ _ eq_refl eq_refl eq_refl));
    discriminate.
Defined.

(** ** The header, lines 127-193 *)

(** X17. The location control tests the latitude for truthiness while the
    guard of [handleSave] compares with null: for a draft whose latitude is
    zero or NaN the control is rendered exactly as on a fresh screen, label
    "Pegar Local" and no success style, although the draft is accepted and
    sent. *)
Theorem locationControl_zero_reads_unset
    (s : AppState) (answer : Js.Settled (Response Place.t)) :
  title s <> "" -> description s <> "" -> longitude s <> None ->
  (exists sign, latitude s = Some (S754_zero sign)) \/ latitude s = Some S754_nan ->
  locationControl s =
    TouchableOpacity [Some "buttonSecondary"; None] HgetLocation false
      [MaterialIcons "my-location" 20 "#4b5563";
       Text [Some "buttonTextSecondary"; None] "Pegar Local"] /\
  locationControl s = locationControl initial /\
  exists rest, effects (handleSave s answer) s = postOf s :: rest.
Proof.
  intros Ht Hd Hlo Hla.
  assert (Hf : truthy_number (latitude s) = false).
  { destruct Hla as [(sign & ->) | ->]; reflexivity. }
  assert (Hc : complete s).
  { repeat split; try assumption.
    destruct Hla as [(sign & ->) | ->]; discriminate. }
  unfold locationControl. rewrite Hf. cbn. repeat split.
  destruct (handleSave_sends s answer Hc) as (rest & He & _).
  now exists rest.
Qed.

Lemma locationControl_zero_reads_unset_witness :
  locationControl originDraft = locationControl initial.
Proof.
  refine (proj1 (proj2 (locationControl_zero_reads_unset originDraft
                          (Js.Resolved createdResponse) _ _ _ _)));
    try (cbn; discriminate).
  left. now exists false.
Defined.

(** X18. The header follows the outcome of a submission: after a successful
    one it is the header of a fresh screen, whatever the list holds; after a
    failed one, pressed while not loading, it is the header the user had. *)
Theorem renderHeader_after_save
    (s : AppState) (answer : Js.Settled (Response Place.t)) :
  title s <> "" -> description s <> "" ->
  latitude s <> None -> longitude s <> None -> loading s = false ->
  ((exists res created,
      answer = Js.Resolved res /\ ok res = true /\ json res = Js.Resolved created) ->
   renderHeader (step s (PressSave answer)) = renderHeader initial) /\
  (failed answer ->
   renderHeader (step s (PressSave answer)) = renderHeader s).
Proof.
  intros Ht Hd Hla Hlo Hl.
  assert (Hc : complete s) by (repeat split; assumption).
  unfold step, final. cbn [dispatch]. rewrite Hl. split.
  - intros (res & created & -> & Hok & Hj).
    now rewrite (handleSave_created s res created Hc Hok Hj).
  - intros Hf.
    assert (Hs : withLoading false s = s).
    { destruct s as [t d la lo ph pl ld]. cbn in Hl. now subst ld. }
    destruct Hf as [e | r Hr | r e Hr Hb].
    + rewrite (handleSave_unreachable s e Hc). cbn [snd state]. now rewrite Hs.
    + rewrite (handleSave_refused s r Hc Hr). cbn [snd state]. now rewrite Hs.
    + rewrite (handleSave_unparsable s r e Hc Hr Hb). cbn [snd state]. now rewrite Hs.
Qed.

Lemma renderHeader_after_save_witness :
  renderHeader (step boaViagemDraft (PressSave (Js.Resolved createdResponse)))
    = renderHeader initial.
Proof.
  refine (proj1 (renderHeader_after_save boaViagemDraft
                   (Js.Resolved createdResponse) _ _ _ _ eq_refl) _);
    try (cbn; discriminate).
  exists createdResponse, boaViagem. repeat split.
Defined.

(** ** The coordinate text, lines 207-209 *)

Lemma length_append (a b : string) :
  String.length (a ++ b) = (String.length a + String.length b)%nat.
Proof. induction a as [| c a IH]; cbn; [reflexivity | now rewrite IH]. Qed.

Lemma length_zeros (k : nat) : String.length (Js.zeros k) = k.
Proof. induction k as [| k IH]; cbn; [reflexivity | now rewrite IH]. Qed.

Lemma length_substring (s : string) :
  forall n m, (n + m <= String.length s)%nat ->
  String.length (substring n m s) = m.
Proof.
  induction s as [| c s IH]; intros n m H; cbn in H.
  - destruct n, m; cbn; lia.
  - destruct n as [| n]; cbn.
    + destruct m as [| m]; cbn; [reflexivity |].
      rewrite (IH 0%nat m) by lia. reflexivity.
    + apply IH. lia.
Qed.

Lemma substring_split (s : string) :
  forall k, (k <= String.length s)%nat ->
  substring 0 k s ++ substring k (String.length s - k) s = s.
Proof.
  induction s as [| c s IH]; intros k H; cbn in H.
  - destruct k; [reflexivity | lia].
  - destruct k as [| k].
    + cbn. f_equal. specialize (IH 0%nat ltac:(lia)).
      cbn in IH. rewrite Nat.sub_0_r in IH.
      destruct s; cbn in *; [reflexivity | exact IH].
    + cbn. f_equal. apply IH. lia.
Qed.

Lemma length_digits_of (n : Z) : (1 <= String.length (Js.digits_of n))%nat.
Proof.
  unfold Js.digits_of, NilZero.string_of_uint.
  destruct (N.to_uint (Z.to_N n)); cbn; lia.
Qed.

(** The digits survive [place_point]: it only pads on the left and inserts
    the point [f] characters from the end. *)
Lemma place_point_shape (m : string) (f : nat) :
  (0 < f)%nat -> (1 <= String.length m)%nat ->
  exists a b pad,
    Js.place_point m f = a ++ "." ++ b /\
    String.length b = f /\ (1 <= String.length a)%nat /\
    a ++ b = Js.zeros pad ++ m.
Proof.
  intros Hf Hm. unfold Js.place_point.
  destruct f as [| f]; [lia |].
  set (m' := if Nat.leb (String.length m) (S f)
             then Js.zeros (S f + 1 - String.length m) ++ m else m).
  assert (Hp : exists pad, m' = Js.zeros pad ++ m /\
                           (S f + 1 <= String.length m')%nat).
  { subst m'. destruct (Nat.leb (String.length m) (S f)) eqn:Hle.
    - apply Nat.leb_le in Hle. eexists; split; [reflexivity |].
      rewrite length_append, length_zeros. lia.
    - apply Nat.leb_gt in Hle. exists 0%nat; split; [reflexivity | lia]. }
  destruct Hp as (pad & Hpad & Hlen).
  exists (substring 0 (String.length m' - S f) m'),
         (substring (String.length m' - S f) (S f) m'), pad.
  repeat split.
  - apply length_substring. lia.
  - rewrite length_substring by lia. lia.
  - rewrite <- Hpad.
    pose proof (substring_split m' (String.length m' - S f) ltac:(lia)) as Hs.
    replace (String.length m' - (String.length m' - S f))%nat with (S f) in Hs by lia.
    exact Hs.
Qed.

Lemma toFixed_shape (x : Js.number) :
  displayable x = true ->
  exists sign a b,
    Js.toFixed x 4 = Some (sign ++ a ++ "." ++ b) /\
    (sign = "" \/ sign = "-") /\
    (1 <= String.length a)%nat /\ String.length b = 4%nat.
Proof.
  intros Hx. destruct x as [s | s | | s m e]; try discriminate.
  - exists "", "0", "0000". cbn. repeat split. now left. lia.
  - cbn in Hx. unfold Js.toFixed. rewrite Hx.
    destruct (place_point_shape (Js.digits_of (Js.nearest_scaled m e 4)) 4
                ltac:(lia) (length_digits_of _)) as (a & b & pad & Hp & Hb & Ha & _).
    exists (if s then "-" else ""), a, b.
    change (N.to_nat 4) with 4%nat. rewrite Hp.
    repeat split; try assumption.
    destruct s; [now right | now left].
Qed.

(** X19. For every item whose coordinates are zeros or finite numbers of
    magnitude below [10^21], the coordinate text is the latitude, the
    separator [", "] and the longitude, each printed as an optional minus
    sign, at least one character, a point and exactly four characters. *)
Theorem cardCoordsText_four_decimals (item : Place.t) :
  displayable (Place.latitude item) = true ->
  displayable (Place.longitude item) = true ->
  exists sa a b so c d,
    cardCoordsText item =
      Some ((sa ++ a ++ "." ++ b) ++ ", " ++ (so ++ c ++ "." ++ d)) /\
    (sa = "" \/ sa = "-") /\ (so = "" \/ so = "-") /\
    (1 <= String.length a)%nat /\ (1 <= String.length c)%nat /\
    String.length b = 4%nat /\ String.length d = 4%nat.
Proof.
  intros Hla Hlo.
  destruct (toFixed_shape _ Hla) as (sa & a & b & Ea & Hsa & Ha & Hb).
  destruct (toFixed_shape _ Hlo) as (so & c & d & Eo & Hso & Hc & Hd).
  exists sa, a, b, so, c, d. unfold cardCoordsText. rewrite Ea, Eo.
  repeat split; assumption.
Qed.

Lemma cardCoordsText_four_decimals_witness :
  exists sa a b so c d,
    cardCoordsText boaViagem =
      Some ((sa ++ a ++ "." ++ b) ++ ", " ++ (so ++ c ++ "." ++ d)) /\
    (sa = "" \/ sa = "-") /\ (so = "" \/ so = "-") /\
    (1 <= String.length a)%nat /\ (1 <= String.length c)%nat /\
    String.length b = 4%nat /\ String.length d = 4%nat.
Proof.
  apply (cardCoordsText_four_decimals boaViagem); vm_compute; reflexivity.
Defined.

Lemma digits_of_value (n : Z) : 0 <= n -> digits_value (Js.digits_of n) = Some n.
Proof.
  intros Hn. unfold digits_value, Js.digits_of.
  pose proof (DecimalN.Unsigned.of_to (Z.to_N n)) as Hof.
  destruct (N.to_uint (Z.to_N n)) eqn:Hd;
    [cbn in Hof |- *; f_equal; lia | ..];
    rewrite NilZero.usu by discriminate; cbn [option_map];
    rewrite Hof; f_equal; lia.
Qed.

(** X20. The latitude shown is the stored one rounded to the nearest multiple
    of [10^-4], a tie going away from zero: for a latitude [(-1)^s * m * 2^e]
    with a fractional part ([e < 0]), the text starts with the sign and the
    pointed digits of the integer [n] with
    [n - 1/2 <= m * 2^e * 10^4 < n + 1/2], and the digits read back as [n]. *)
Theorem latitude_text_rounds_to_nearest
    (item : Place.t) (s : bool) (m : positive) (e : Z) :
  Place.latitude item = S754_finite s m e -> e < 0 ->
  Js.below_1e21 m e = true -> displayable (Place.longitude item) = true ->
  exists n lo,
    cardCoordsText item =
      Some (((if s then "-" else "") ++ Js.place_point (Js.digits_of n) 4)
            ++ ", " ++ lo) /\
    digits_value (Js.digits_of n) = Some n /\
    (2 * n - 1) * 2 ^ (- e) <= 2 * Z.pos m * 10 ^ 4 < (2 * n + 1) * 2 ^ (- e).
Proof.
  intros Hla He Hb Hlo.
  destruct (toFixed_shape _ Hlo) as (so & c & d & Eo & _).
  exists (Js.nearest_scaled m e 4), (so ++ c ++ "." ++ d).
  pose proof (nearest_scaled_nearest m e 4 He) as Hn. cbn zeta in Hn.
  change (Z.of_N 4) with 4 in Hn.
  repeat split; try apply Hn.
  - unfold cardCoordsText. rewrite Hla, Eo. unfold Js.toFixed. rewrite Hb.
    reflexivity.
  - apply digits_of_value.
    assert (0 < 2 ^ (- e)) by (apply Z.pow_pos_nonneg; lia). nia.
Qed.

Lemma latitude_text_rounds_to_nearest_witness :
  exists n lo,
    cardCoordsText
      {| Place._id := "x"; Place.title := "t"; Place.description := "d";
         Place.latitude := S754_finite false 6949998855054516 (-49);
         Place.longitude := S754_zero false;
         Place.photo := None; Place.createdAt := None |} =
      Some (Js.place_point (Js.digits_of n) 4 ++ ", " ++ lo) /\
    digits_value (Js.digits_of n) = Some n /\
    (2 * n - 1) * 2 ^ 49 <= 2 * 6949998855054516 * 10 ^ 4 < (2 * n + 1) * 2 ^ 49.
Proof.
  exact (latitude_text_rounds_to_nearest
           {| Place._id := "x"; Place.title := "t"; Place.description := "d";
              Place.latitude := S754_finite false 6949998855054516 (-49);
              Place.longitude := S754_zero false;
              Place.photo := None; Place.createdAt := None |}
           false 6949998855054516 (-49) eq_refl eq_refl eq_refl eq_refl).
Defined.

(** ** What the capture handlers never do *)

(** X21. Whatever the permission dialog, the position service and the camera
    answer, [getLocation] and [takePhoto] send no request, show at most one
    notification, and leave the title, the description, the list and the
    loading flag as they were. *)
Theorem capture_handlers_stay_local
    (s : AppState) (permission : Js.Settled PermissionResponse)
    (position : Js.Settled LocationObject) (capture : Js.Settled ImagePickerResult) :
  (filter is_fetch (effects (getLocation permission position) s) = [] /\
   (length (filter is_alert (effects (getLocation permission position) s)) <= 1)%nat /\
   title (final (getLocation permission position) s) = title s /\
   description (final (getLocation permission position) s) = description s /\
   places (final (getLocation permission position) s) = places s /\
   loading (final (getLocation permission position) s) = loading s) /\
  (filter is_fetch (effects (takePhoto permission capture) s) = [] /\
   (length (filter is_alert (effects (takePhoto permission capture) s)) <= 1)%nat /\
   title (final (takePhoto permission capture) s) = title s /\
   description (final (takePhoto permission capture) s) = description s /\
   places (final (takePhoto permission capture) s) = places s /\
   loading (final (takePhoto permission capture) s) = loading s).
Proof.
  split.
  - unfold effects, final, run, getLocation.
    destruct permission as [[st] | e]; cbn; [| repeat split; lia].
    destruct (st =? "granted")%string; cbn; [| repeat split; lia].
    destruct position as [[[la lo]] | e]; cbn; repeat split; lia.
  - unfold effects, final, run, takePhoto.
    destruct permission as [[st] | e]; cbn; [| repeat split; lia].
    destruct (st =? "granted")%string; cbn; [| repeat split; lia].
    destruct capture as [[c a] | e]; cbn; [| repeat split; lia].
    destruct c; cbn; [repeat split; lia |].
    destruct a as [[| [b u] rest] |]; cbn; try (repeat split; lia).
    destruct (Js.truthy_opt b); cbn; [repeat split; lia |].
    destruct (Js.truthy_opt u); cbn; repeat split; lia.
Qed.
